(** * stopwatch: a shallow embedding of [include/stopwatch.h]

    The header defines a clock reading the processor's time-stamp counter
    ([rdtscp_clock]), a deadline [timer] over any clock, the function [time]
    measuring one call of a callable and the function [sample] measuring [N]
    calls and returning the measurements sorted.

    Integers of the program are mathematical integers with their wrap-around
    written out.  Code that reads the clock or calls the callable runs in a
    state-and-exception monad over a machine made of the outside world and
    of a log of what the program did to it. *)

From Stdlib Require Import ZArith List Lia Bool.
From stdpp Require Import base decidable list sorting.
Import ListNotations.

Local Open Scope Z_scope.

(** ** Arithmetic types *)

(** The integer types a clock can use for its [rep]. *)
Inductive int_type : Type :=
  | unsigned_int (bits : Z)
  | signed_int (bits : Z).

(** The value an arithmetic result takes in a type.  Unsigned arithmetic is
    modulo [2 ^ bits]; for a signed type, whose overflow C++ leaves
    undefined, the two's complement value stands in. *)
Definition wrap (ty : int_type) (z : Z) : Z :=
  match ty with
  | unsigned_int w => z mod 2 ^ w
  | signed_int w => (z + 2 ^ (w - 1)) mod 2 ^ w - 2 ^ (w - 1)
  end.

Definition in_range (ty : int_type) (z : Z) : Prop :=
  match ty with
  | unsigned_int w => 0 <= z < 2 ^ w
  | signed_int w => - 2 ^ (w - 1) <= z < 2 ^ (w - 1)
  end.

Definition uint32_t : int_type := unsigned_int 32.
Definition uint64_t : int_type := unsigned_int 64.

(** [std::ratio<Num, Denom>], whose [Denom] defaults to 1. *)
Record ratio : Type := { num : Z; den : Z }.

Definition std_ratio (n : Z) : ratio := {| num := n; den := 1 |}.

(** ** [std::chrono::duration] and [std::chrono::time_point]

    A duration holds a tick count of the clock's [rep]; a time point holds
    the duration since the clock's epoch.  The operators below are the ones
    the header uses, on operands of one clock. *)

Record duration : Type := { count : Z }.
Record time_point : Type := { time_since_epoch : duration }.

Definition duration_zero : duration := {| count := 0 |}.

Definition duration_plus (ty : int_type) (a b : duration) : duration :=
  {| count := wrap ty (count a + count b) |}.

Definition duration_minus (ty : int_type) (a b : duration) : duration :=
  {| count := wrap ty (count a - count b) |}.

Definition duration_lt (a b : duration) : bool := count a <? count b.

(** [time_point + duration] *)
Definition time_point_plus (ty : int_type) (t : time_point) (d : duration)
  : time_point :=
  {| time_since_epoch := duration_plus ty (time_since_epoch t) d |}.

(** [time_point - time_point] *)
Definition time_point_minus (ty : int_type) (a b : time_point) : duration :=
  duration_minus ty (time_since_epoch a) (time_since_epoch b).

Definition time_point_lt (a b : time_point) : bool :=
  duration_lt (time_since_epoch a) (time_since_epoch b).

(** [a >= b] on time points is [!(a < b)]. *)
Definition time_point_ge (a b : time_point) : bool :=
  negb (time_point_lt a b).

Definition ticks (t : time_point) : Z := count (time_since_epoch t).

(** ** Clocks *)

(** What the header uses of a clock type: its [rep], its [period] and the
    static [now], which reads the world and leaves it in a later state. *)
Class Clock (W : Type) : Type := {
  rep : int_type;
  period : ratio;
  now : W -> time_point * W
}.

(** *** The processor

    The time-stamp counter and the [IA32_TSC_AUX] register, both read by
    the [rdtscp] instruction, and the state the processor is in once an
    instruction has retired. *)
Class Cpu (W : Type) : Type := {
  TSC : W -> Z;
  TSC_AUX : W -> Z;
  retire : W -> W
}.

Record registers : Type := { EDX : Z; EAX : Z; ECX : Z }.

(** [rdtscp] loads the high 32 bits of the counter into [EDX], its low 32
    bits into [EAX] and [IA32_TSC_AUX] into [ECX]. *)
Definition rdtscp_insn {W : Type} `{Cpu W} (w : W) : registers * W :=
  ({| EDX := Z.shiftr (TSC w) 32 mod 2 ^ 32;
      EAX := TSC w mod 2 ^ 32;
      ECX := TSC_AUX w mod 2 ^ 32 |}, retire w).

(** The compiler intrinsic [__rdtscp(&aux)]: the 64-bit counter is the
    returned value, [IA32_TSC_AUX] is stored through the pointer. *)
Definition intrin_rdtscp {W : Type} `{Cpu W} (w : W) : (Z * Z) * W :=
  let (r, w') := rdtscp_insn w in
  ((Z.lor (Z.shiftl (EDX r) 32) (EAX r), ECX r), w').

(** The three targets [rdtscp_clock::now] has a body for. *)
Inductive platform : Type := APPLE | LINUX | WIN32.

Module rdtscp_clock.

Definition rep : int_type := uint64_t.
Definition period : ratio := std_ratio 1.

(** [(static_cast<std::uint64_t>(hi) << 32) | lo] *)
Definition combine (hi lo : Z) : Z :=
  Z.lor (wrap uint64_t (Z.shiftl (wrap uint64_t hi) 32)) (wrap uint64_t lo).

(** The statement [__asm__ __volatile__("rdtscp" : "=d"(hi), "=a"(lo))].
    The instruction runs; [hi] is [EDX] and [lo] is [EAX].  The
    instruction writes [ECX] as well, and the statement has no clobber
    list: the compiler takes [RCX] to be left alone and may keep a value
    of the program there over the statement.  The third component is what
    such a value is once the statement has run, the 32 bits of [ECX] with
    the upper half of [RCX] cleared. *)
Definition asm_rdtscp {W : Type} `{Cpu W} (w : W) : (Z * Z * Z) * W :=
  let (r, w') := rdtscp_insn w in
  ((EDX r, EAX r, ECX r), w').

(** [now()], in compiled code that holds the value [rcx] in [RCX] while it
    runs: the reading, and what has become of [rcx].  The intrinsic of the
    third target is known to the compiler for what it writes, and the value
    is kept. *)
Definition now {W : Type} `{Cpu W} (p : platform) (rcx : Z) (w : W)
  : (time_point * Z) * W :=
  match p with
  | APPLE | LINUX =>
      let '((hi, lo, rcx'), w') := asm_rdtscp w in
      (({| time_since_epoch := {| count := combine hi lo |} |}, rcx'), w')
  | WIN32 =>
      let '((lo, aux), w') := intrin_rdtscp w in
      (({| time_since_epoch := {| count := wrap uint64_t lo |} |}, rcx), w')
  end.

End rdtscp_clock.

(** [rdtscp_clock] as a clock of the templates below: its [rep], its
    [period] and its readings.  This is the clock as code sees it that has
    nothing in [RCX] to lose; [time_rdtscp] below is [time] with this clock
    in code that has. *)
Definition rdtscp_clock {W : Type} `{Cpu W} (p : platform) : Clock W :=
  {| rep := rdtscp_clock.rep;
     period := rdtscp_clock.period;
     now := fun w => (fst (fst (rdtscp_clock.now p 0 w)),
                      snd (rdtscp_clock.now p 0 w)) |}.

(** ** Default template arguments

    [template <class Clock = D>]: the clock a template is instantiated
    with is the one written by the caller, or [D] when none is written. *)
Inductive clock_id : Type :=
  | id_rdtscp_clock
  | id_std_chrono_system_clock
  | id_other (name : nat).

Definition template_argument (default : clock_id) (written : option clock_id)
  : clock_id :=
  match written with
  | Some c => c
  | None => default
  end.

Definition timer_Clock : option clock_id -> clock_id :=
  template_argument id_std_chrono_system_clock.
Definition make_timer_Clock : option clock_id -> clock_id :=
  template_argument id_std_chrono_system_clock.
Definition time_Clock : option clock_id -> clock_id :=
  template_argument id_rdtscp_clock.
Definition sample_Clock : option clock_id -> clock_id :=
  template_argument id_rdtscp_clock.

(** ** The machine

    A callable is a step of the world that returns or throws.  The machine
    pairs the world with the log of the clock reads and of the calls made
    so far; the program cannot read the log. *)

Inductive outcome (exn : Type) : Type :=
  | Returned
  | Threw (e : exn).
Arguments Returned {exn}.
Arguments Threw {exn} e.

Definition Func (W exn : Type) : Type := W -> outcome exn * W.

Inductive event (exn : Type) : Type :=
  | EvNow (t : time_point)
  | EvCall (o : outcome exn).
Arguments EvNow {exn} t.
Arguments EvCall {exn} o.

Record machine (W exn : Type) : Type := { world : W; log : list (event exn) }.
Arguments world {W exn} m.
Arguments log {W exn} m.

Inductive result (exn A : Type) : Type :=
  | Ok (a : A)
  | Raise (e : exn).
Arguments Ok {exn A} a.
Arguments Raise {exn A} e.

Definition M (W exn A : Type) : Type :=
  machine W exn -> result exn A * machine W exn.

Definition ret {W exn A : Type} (a : A) : M W exn A := fun s => (Ok a, s).

Definition bind {W exn A B : Type} (m : M W exn A) (k : A -> M W exn B)
  : M W exn B :=
  fun s =>
    match m s with
    | (Ok a, s') => k a s'
    | (Raise e, s') => (Raise e, s')
    end.

Notation "'do' x <- m ;; k" := (bind m (fun x => k))
  (at level 10, x name, m at level 99, k at level 200).

Definition is_now {exn : Type} (ev : event exn) : bool :=
  match ev with EvNow _ => true | EvCall _ => false end.

Definition is_call {exn : Type} (ev : event exn) : bool :=
  match ev with EvNow _ => false | EvCall _ => true end.

(** How often the clock was read and the callable called, by a log. *)
Definition clock_reads {exn : Type} (l : list (event exn)) : nat :=
  length (List.filter is_now l).

Definition invocations {exn : Type} (l : list (event exn)) : nat :=
  length (List.filter is_call l).

(** [std::sort] on durations: a sort by [operator<], here a merge sort by
    "not greater than". *)
Definition duration_le (a b : duration) : Prop := duration_lt b a = false.

#[global] Instance duration_le_dec : RelDecision duration_le.
Proof. intros a b. unfold duration_le. apply _. Defined.

Definition std_sort (l : list duration) : list duration :=
  merge_sort duration_le l.

(** ** The timer *)

Record timer : Type := { expiry : time_point }.

Section stopwatch.

Context {W exn : Type} {C : Clock W}.

(** [Clock::now()] *)
Definition clock_now : M W exn time_point :=
  fun s =>
    let (t, w') := now (world s) in
    (Ok t, {| world := w'; log := log s ++ [EvNow t] |}).

(** [function()] *)
Definition call (function : Func W exn) : M W exn unit :=
  fun s =>
    let (o, w') := function (world s) in
    (match o with Returned => Ok tt | Threw e => Raise e end,
     {| world := w'; log := log s ++ [EvCall o] |}).

(** [explicit timer(const duration duration)] *)
Definition timer_of_duration (d : duration) : M W exn timer :=
  do t <- clock_now ;;
  ret {| expiry := time_point_plus rep t d |}.

(** [explicit timer(const time_point expiry)] *)
Definition timer_of_time_point (e : time_point) : timer :=
  {| expiry := e |}.

(** [done(now)] and [remaining(now)], the argument written. *)
Definition done (tm : timer) (now : time_point) : bool :=
  time_point_ge now (expiry tm).

Definition remaining (tm : timer) (now : time_point) : duration :=
  time_point_minus rep (expiry tm) now.

(** [done()] and [remaining()]: the default argument [Clock::now()] is
    evaluated by the call. *)
Definition done_now (tm : timer) : M W exn bool :=
  do t <- clock_now ;;
  ret (done tm t).

Definition remaining_now (tm : timer) : M W exn duration :=
  do t <- clock_now ;;
  ret (remaining tm t).

Definition make_timer (d : duration) : M W exn timer :=
  timer_of_duration d.

(** *** Timers in storage

    The members of [struct timer] as operations on the timers a program
    has made: the object at address [a] is [objs !! a], a constructor adds
    an object behind the ones there are.  The members are the two
    constructors, the copy constructor the language supplies, [done] and
    [remaining], each with its argument written or left out; there is no
    assignment, which the [const] member rules out.  A call on an address
    without object answers [no_such_object]. *)
Inductive timer_member : Type :=
  | ctor_duration (d : duration)
  | ctor_time_point (e : time_point)
  | ctor_copy (other : nat)
  | call_done (this : nat) (now : option time_point)
  | call_remaining (this : nat) (now : option time_point).

Inductive reply : Type :=
  | constructed (this : nat)
  | answer_done (b : bool)
  | answer_remaining (d : duration)
  | no_such_object.

Definition member_call (m : timer_member) (objs : list timer)
  : M W exn (reply * list timer) :=
  match m with
  | ctor_duration d =>
      do tm <- timer_of_duration d ;;
      ret (constructed (length objs), objs ++ [tm])
  | ctor_time_point e =>
      ret (constructed (length objs), objs ++ [timer_of_time_point e])
  | ctor_copy other =>
      match objs !! other with
      | Some tm =>
          ret (constructed (length objs), objs ++ [{| expiry := expiry tm |}])
      | None => ret (no_such_object, objs)
      end
  | call_done this now =>
      match objs !! this, now with
      | Some tm, Some t => ret (answer_done (done tm t), objs)
      | Some tm, None => do b <- done_now tm ;; ret (answer_done b, objs)
      | None, _ => ret (no_such_object, objs)
      end
  | call_remaining this now =>
      match objs !! this, now with
      | Some tm, Some t => ret (answer_remaining (remaining tm t), objs)
      | Some tm, None =>
          do d <- remaining_now tm ;; ret (answer_remaining d, objs)
      | None, _ => ret (no_such_object, objs)
      end
  end.

(** Member calls one after the other. *)
Fixpoint member_calls (ms : list timer_member) (objs : list timer)
  : M W exn (list reply * list timer) :=
  match ms with
  | [] => ret ([], objs)
  | m :: ms' =>
      do r <- member_call m objs ;;
      do rs <- member_calls ms' (snd r) ;;
      ret (fst r :: fst rs, snd rs)
  end.

(** ** [time] and [sample] *)

Definition time (function : Func W exn) : M W exn duration :=
  do start <- clock_now ;;
  do u <- call function ;;
  do stop <- clock_now ;;
  ret (time_point_minus rep stop start).

(** The loop [for (i = 0; i < N; ++i) samples[i] = time<Clock>(function)],
    with [todo = N - i] iterations to go. *)
Fixpoint sample_loop (function : Func W exn) (todo i : nat)
    (samples : list duration) : M W exn (list duration) :=
  match todo with
  | O => ret samples
  | S todo' =>
      do d <- time function ;;
      sample_loop function todo' (S i) (<[i := d]> samples)
  end.

(** [sample<N, Clock>(function)].  The array is not initialised by its
    declaration: [uninit i] is what its [i]-th element holds then. *)
Definition sample (N : nat) (uninit : nat -> duration)
    (function : Func W exn) : M W exn (list duration) :=
  do samples <- sample_loop function N 0%nat (map uninit (seq 0 N)) ;;
  ret (std_sort samples).

(** The world one measured call that returns leaves behind: the clock
    was read, the callable has run, the clock was read again. *)
Definition world_after_time (function : Func W exn) (w : W) : W :=
  snd (now (snd (function (snd (now w))))).

(** The world in which the callable is called for the [j]-th time,
    counting from 0, by measured calls in a row that start in [w]. *)
Fixpoint world_at_call (function : Func W exn) (j : nat) (w : W) : W :=
  match j with
  | O => snd (now w)
  | S j' => world_at_call function j' (world_after_time function w)
  end.

(** What one measured call that returns contributes, given the two
    readings of the clock around the call: the duration [stop - start] to
    the samples, and three events to the log. *)
Definition measurement (r : time_point * time_point) : duration :=
  time_point_minus rep (snd r) (fst r).

Definition measured_events (r : time_point * time_point) : list (event exn) :=
  [EvNow (fst r); EvCall Returned; EvNow (snd r)].

End stopwatch.

(** ** [time<rdtscp_clock>] as compiled

    [start] is needed after the second [now()].  Where the compiled code
    keeps it meanwhile is the compiler's choice: out of [RCX]; in [RCX],
    already put together; or its high half in [ECX] and the low half
    elsewhere, to be put together when the difference is taken.  In the
    last two cases the second [rdtscp] writes over it. *)
Inductive start_location : Type :=
  | start_elsewhere
  | start_in_rcx
  | start_high_in_rcx.

Section rdtscp_compiled.

Context {W exn : Type} {cpu : Cpu W}.

(** The [rdtscp] statement in the monad; the log gets the reading. *)
Definition asm_now : M W exn (Z * Z * Z) :=
  fun s =>
    let (r, w') := rdtscp_clock.asm_rdtscp (world s) in
    (Ok r,
     {| world := w';
        log := log s ++
          [EvNow {| time_since_epoch :=
                      {| count := rdtscp_clock.combine (fst (fst r))
                                                       (snd (fst r)) |} |}] |}).

Definition time_rdtscp (p : platform) (loc : start_location)
    (function : Func W exn) : M W exn duration :=
  match p with
  | APPLE | LINUX =>
      do r1 <- asm_now ;;
      do u <- call function ;;
      do r2 <- asm_now ;;
      let stop := rdtscp_clock.combine (fst (fst r2)) (snd (fst r2)) in
      let start :=
        match loc with
        | start_elsewhere => rdtscp_clock.combine (fst (fst r1)) (snd (fst r1))
        | start_in_rcx => snd r2
        | start_high_in_rcx => rdtscp_clock.combine (snd r2) (snd (fst r1))
        end in
      ret (duration_minus rdtscp_clock.rep {| count := stop |}
                          {| count := start |})
  | WIN32 => @time W exn (rdtscp_clock WIN32) function
  end.

End rdtscp_compiled.

(** ** A machine to run the definitions on

    The world is the value of the time-stamp counter.  Reading it costs 30
    ticks; [work] returns and leaves the counter somewhere below 1000;
    [flaky] takes 100 ticks and returns while the counter is below 300,
    and throws the exception [7] once it is not. *)
Module Example.

Definition counter_cpu : Cpu Z :=
  {| TSC := fun w => w; TSC_AUX := fun _ => 3; retire := fun w => w + 30 |}.

Definition clock : Clock Z := @rdtscp_clock Z counter_cpu LINUX.

Definition work : Func Z nat := fun w => (Returned, (w * 7) mod 1000).

Definition flaky : Func Z nat :=
  fun w => if w <? 300 then (Returned, w + 100) else (Threw 7%nat, w + 5).

Definition boot : machine Z nat := {| world := 2 ^ 64 - 20; log := [] |}.

Definition zero : machine Z nat := {| world := 0; log := [] |}.

Definition at_ticks (n : Z) : time_point :=
  {| time_since_epoch := {| count := n |} |}.

End Example.

(** A second machine on the same processor: [spin] always returns, 100
    ticks later; [near_wrap] is 20 ticks before the counter wraps. *)
Module Lab.

Definition spin : Func Z nat := fun w => (Returned, w + 100).

Definition near_wrap : machine Z nat := {| world := 2 ^ 64 - 20; log := [] |}.

(** A clock of unsigned 64-bit ticks that is no more than a counter: a
    reading is the counter, and costs 30 ticks. *)
Definition counter_clock : Clock Z :=
  {| rep := uint64_t;
     period := std_ratio 1;
     now := fun w => (Example.at_ticks (w mod 2 ^ 64), w + 30) |}.

(** [brief] returns 6 ticks later; in [high] the upper half of the counter
    is 659 and the lower half 1000. *)
Definition brief : Func Z nat := fun w => (Returned, w + 6).

Definition high : machine Z nat :=
  {| world := 659 * 2 ^ 32 + 1000; log := [] |}.

End Lab.

(** * Properties *)

(** ** Arithmetic *)

Lemma wrap_zero (ty : int_type) : wrap ty 0 = 0.
Proof.
  destruct ty as [w|w]; simpl.
  - apply Zmod_0_l.
  - destruct (Z_lt_le_dec 0 w) as [Hw|Hw].
    + rewrite Z.mod_small; [lia|].
      split; [apply Z.pow_nonneg; lia|].
      apply Z.pow_lt_mono_r; lia.
    + assert (H0 : 2 ^ (w - 1) = 0) by (apply Z.pow_neg_r; lia).
      rewrite H0. simpl. rewrite Zmod_0_l. reflexivity.
Qed.

Lemma wrap_unsigned_range (w z : Z) :
  0 <= w -> in_range (unsigned_int w) (wrap (unsigned_int w) z).
Proof.
  intros Hw. simpl. apply Z.mod_pos_bound. apply Z.pow_pos_nonneg; lia.
Qed.

Lemma wrap_unsigned_id (w z : Z) :
  in_range (unsigned_int w) z -> wrap (unsigned_int w) z = z.
Proof. simpl. intros Hz. apply Z.mod_small. exact Hz. Qed.

(** Gluing the two halves of a 64-bit counter gives it back. *)
Lemma combine_halves (x : Z) :
  Z.lor (Z.shiftl (Z.shiftr x 32 mod 2 ^ 32) 32) (x mod 2 ^ 32) = x mod 2 ^ 64.
Proof.
  apply Z.bits_inj'. intros i Hi.
  rewrite Z.lor_spec, Z.shiftl_spec by exact Hi.
  rewrite !Z.testbit_mod_pow2 by lia.
  destruct (Z.ltb_spec i 32) as [Hlt|Hge].
  - rewrite (Z.testbit_neg_r _ (i - 32)) by lia.
    rewrite andb_false_r. simpl.
    destruct (Z.ltb_spec i 64); [reflexivity|lia].
  - rewrite Z.shiftr_spec by lia.
    replace (i - 32 + 32) with i by lia. simpl.
    rewrite orb_false_r.
    destruct (Z.ltb_spec (i - 32) 32), (Z.ltb_spec i 64);
      try lia; reflexivity.
Qed.

Lemma halves_in_range (x : Z) :
  0 <= Z.shiftr x 32 mod 2 ^ 32 < 2 ^ 32 /\ 0 <= x mod 2 ^ 32 < 2 ^ 32.
Proof. split; apply Z.mod_pos_bound; lia. Qed.

Lemma shifted_half_in_range (h : Z) :
  0 <= h < 2 ^ 32 -> 0 <= Z.shiftl h 32 < 2 ^ 64.
Proof.
  intros Hh. rewrite Z.shiftl_mul_pow2 by lia.
  change (2 ^ 64) with (2 ^ 32 * 2 ^ 32). nia.
Qed.

(** ** The clock of the time-stamp counter *)

Lemma combine_counter (x : Z) :
  rdtscp_clock.combine (Z.shiftr x 32 mod 2 ^ 32) (x mod 2 ^ 32) = x mod 2 ^ 64.
Proof.
  destruct (halves_in_range x) as [Hhi Hlo].
  unfold rdtscp_clock.combine, uint64_t.
  rewrite (wrap_unsigned_id 64 (Z.shiftr x 32 mod 2 ^ 32)) by (simpl; lia).
  rewrite (wrap_unsigned_id 64 (x mod 2 ^ 32)) by (simpl; lia).
  rewrite (wrap_unsigned_id 64 (Z.shiftl _ 32))
    by (simpl; apply shifted_half_in_range; exact Hhi).
  apply combine_halves.
Qed.

Lemma combine_value (hi lo : Z) :
  0 <= hi < 2 ^ 32 -> 0 <= lo < 2 ^ 32 ->
  rdtscp_clock.combine hi lo = hi * 2 ^ 32 + lo.
Proof.
  intros Hhi Hlo.
  assert (Hh : Z.shiftr (hi * 2 ^ 32 + lo) 32 mod 2 ^ 32 = hi).
  { rewrite Z.shiftr_div_pow2 by lia.
    rewrite Z.div_add_l by lia. rewrite (Z.div_small lo) by lia.
    rewrite Z.add_0_r. apply Z.mod_small. exact Hhi. }
  assert (Hl : (hi * 2 ^ 32 + lo) mod 2 ^ 32 = lo).
  { rewrite Z.add_comm, Z.mod_add by lia. apply Z.mod_small. exact Hlo. }
  rewrite <- Hh at 1. rewrite <- Hl at 2. rewrite combine_counter.
  apply Z.mod_small. change (2 ^ 64) with (2 ^ 32 * 2 ^ 32). nia.
Qed.

Section rdtscp_facts.

Context {W : Type} {cpu : Cpu W}.

Lemma intrin_rdtscp_value (w : W) :
  intrin_rdtscp w = ((TSC w mod 2 ^ 64, TSC_AUX w mod 2 ^ 32), retire w).
Proof.
  unfold intrin_rdtscp, rdtscp_insn. simpl.
  rewrite combine_halves. reflexivity.
Qed.

(** What [now] returns and what it does to a value kept in [RCX]. *)
Lemma rdtscp_now_value (p : platform) (rcx : Z) (w : W) :
  rdtscp_clock.now p rcx w =
  (({| time_since_epoch := {| count := TSC w mod 2 ^ 64 |} |},
    match p with WIN32 => rcx | _ => TSC_AUX w mod 2 ^ 32 end), retire w).
Proof.
  destruct p; unfold rdtscp_clock.now.
  1, 2: unfold rdtscp_clock.asm_rdtscp, rdtscp_insn; cbn [EDX EAX ECX];
    rewrite combine_counter; reflexivity.
  rewrite intrin_rdtscp_value.
  unfold wrap, uint64_t. rewrite Z.mod_mod by lia. reflexivity.
Qed.

Lemma rdtscp_now_ticks (p : platform) (w : W) :
  @now W (rdtscp_clock p) w =
  ({| time_since_epoch := {| count := TSC w mod 2 ^ 64 |} |}, retire w).
Proof. cbn [now rdtscp_clock]. rewrite rdtscp_now_value. reflexivity. Qed.

End rdtscp_facts.

(** ** The timer *)

Section timer_facts.

Context {W exn : Type} {C : Clock W}.

Lemma time_point_ge_ticks (a b : time_point) :
  time_point_ge a b = (ticks b <=? ticks a).
Proof.
  unfold time_point_ge, time_point_lt, duration_lt, ticks.
  rewrite Z.leb_antisym. reflexivity.
Qed.

Lemma clock_now_run (s : machine W exn) :
  clock_now s =
  (Ok (fst (now (world s))),
   {| world := snd (now (world s));
      log := log s ++ [EvNow (fst (now (world s)))] |}).
Proof. unfold clock_now. destruct (now (world s)). reflexivity. Qed.

Lemma done_now_run (tm : timer) (s : machine W exn) :
  done_now tm s =
  (Ok (done tm (fst (now (world s)))),
   {| world := snd (now (world s));
      log := log s ++ [EvNow (fst (now (world s)))] |}).
Proof. unfold done_now, bind. rewrite clock_now_run. reflexivity. Qed.

Lemma remaining_now_run (tm : timer) (s : machine W exn) :
  remaining_now tm s =
  (Ok (remaining tm (fst (now (world s)))),
   {| world := snd (now (world s));
      log := log s ++ [EvNow (fst (now (world s)))] |}).
Proof. unfold remaining_now, bind. rewrite clock_now_run. reflexivity. Qed.

Lemma timer_of_duration_run (d : duration) (s : machine W exn) :
  timer_of_duration d s =
  (Ok {| expiry := time_point_plus rep (fst (now (world s))) d |},
   {| world := snd (now (world s));
      log := log s ++ [EvNow (fst (now (world s)))] |}).
Proof.
  unfold timer_of_duration, bind. rewrite clock_now_run. reflexivity.
Qed.

(** C2: [done(now)] is true exactly when [now] is at or after the expiry
    and false exactly when [now] is before it; without an argument, the
    time compared is the one the clock gives in the state of the call,
    and the call reads the clock once. *)
Theorem timer_done_iff (tm : timer) (t : time_point) (s : machine W exn) :
  (done tm t = true <-> ticks (expiry tm) <= ticks t) /\
  (done tm t = false <-> ticks t < ticks (expiry tm)) /\
  done_now tm s =
    (Ok (done tm (fst (now (world s)))),
     {| world := snd (now (world s));
        log := log s ++ [EvNow (fst (now (world s)))] |}).
Proof.
  unfold done. rewrite time_point_ge_ticks.
  split; [apply Z.leb_le|].
  split; [apply Z.leb_gt|].
  apply done_now_run.
Qed.

(** C3: [remaining(now)] is [expiry - now], the difference taken in the
    clock's duration type; a timer made from the time point [t] has
    nothing remaining at [t], and [t - now] remaining at any [now]. *)
Theorem timer_remaining_exact (tm : timer) (t t' : time_point) :
  remaining tm t' = time_point_minus rep (expiry tm) t' /\
  count (remaining tm t') = wrap rep (ticks (expiry tm) - ticks t') /\
  expiry (timer_of_time_point t) = t /\
  remaining (timer_of_time_point t) t = duration_zero /\
  remaining (timer_of_time_point t) t' = time_point_minus rep t t'.
Proof.
  repeat split.
  unfold remaining, timer_of_time_point, time_point_minus, duration_minus,
    duration_zero.
  cbn [expiry]. rewrite Z.sub_diag, wrap_zero. reflexivity.
Qed.

(** C4: the timer made from the duration [d] expires at the time the
    clock gave during the construction, plus [d]; the construction reads
    the clock once, and whenever the timer is used later, with or without
    an explicit time, it is this expiry that is compared. *)
Theorem timer_of_duration_anchored (d : duration) (s : machine W exn) :
  let t0 := fst (now (world s)) in
  exists (tm : timer) (s' : machine W exn),
    timer_of_duration d s = (Ok tm, s') /\
    expiry tm = time_point_plus rep t0 d /\
    world s' = snd (now (world s)) /\
    log s' = log s ++ [EvNow t0] /\
    forall (t : time_point) (later : machine W exn),
      done tm t = time_point_ge t (time_point_plus rep t0 d) /\
      remaining tm t = time_point_minus rep (time_point_plus rep t0 d) t /\
      fst (done_now tm later) =
        Ok (time_point_ge (fst (now (world later)))
                          (time_point_plus rep t0 d)) /\
      fst (remaining_now tm later) =
        Ok (time_point_minus rep (time_point_plus rep t0 d)
                             (fst (now (world later)))).
Proof.
  intros t0. eexists. eexists.
  split; [apply timer_of_duration_run|].
  repeat split.
  - rewrite done_now_run. reflexivity.
  - rewrite remaining_now_run. reflexivity.
Qed.

Lemma member_call_keeps (m : timer_member) (objs : list timer)
    (s : machine W exn) :
  exists (r : reply) (objs' : list timer) (s' : machine W exn),
    member_call m objs s = (Ok (r, objs'), s') /\
    forall (a : nat) (tm : timer),
      objs !! a = Some tm -> objs' !! a = Some tm.
Proof.
  destruct m as [d|e|other|this [t|]|this [t|]]; cbn [member_call].
  - unfold bind. rewrite timer_of_duration_run.
    eexists. eexists. eexists. split; [reflexivity|].
    intros a tm Ha. apply lookup_app_l_Some. exact Ha.
  - eexists. eexists. eexists. split; [reflexivity|].
    intros a tm Ha. apply lookup_app_l_Some. exact Ha.
  - destruct (objs !! other) as [tm0|];
      (eexists; eexists; eexists; split; [reflexivity|]);
      intros a tm Ha; [apply lookup_app_l_Some|]; exact Ha.
  - destruct (objs !! this) as [tm0|];
      (eexists; eexists; eexists; split; [reflexivity|]); auto.
  - destruct (objs !! this) as [tm0|].
    + unfold bind. rewrite done_now_run.
      eexists. eexists. eexists. split; [reflexivity|]. auto.
    + eexists. eexists. eexists. split; [reflexivity|]. auto.
  - destruct (objs !! this) as [tm0|];
      (eexists; eexists; eexists; split; [reflexivity|]); auto.
  - destruct (objs !! this) as [tm0|].
    + unfold bind. rewrite remaining_now_run.
      eexists. eexists. eexists. split; [reflexivity|]. auto.
    + eexists. eexists. eexists. split; [reflexivity|]. auto.
Qed.

Lemma member_calls_keep (ms : list timer_member) :
  forall (objs : list timer) (s : machine W exn),
  exists (rs : list reply) (objs' : list timer) (s' : machine W exn),
    member_calls ms objs s = (Ok (rs, objs'), s') /\
    length rs = length ms /\
    forall (a : nat) (tm : timer),
      objs !! a = Some tm -> objs' !! a = Some tm.
Proof.
  induction ms as [|m ms IH]; intros objs s.
  - exists [], objs, s. cbn. auto.
  - destruct (member_call_keeps m objs s) as (r & objs1 & s1 & Hm & Hk1).
    destruct (IH objs1 s1) as (rs & objs2 & s2 & Hms & Hlen & Hk2).
    exists (r :: rs), objs2, s2. cbn [member_calls]. unfold bind.
    rewrite Hm. cbn [snd fst]. rewrite Hms. cbn [snd fst length].
    split; [reflexivity|]. split; [lia|]. auto.
Qed.


(** C10: [make_timer<Clock>(d)] is [timer<Clock>(d)]: in every state of
    the machine both give the same timer, expiring at the clock's time
    plus [d], and leave the machine in the same state. *)
Theorem make_timer_eq_timer (d : duration) (s : machine W exn) :
  make_timer d s = timer_of_duration d s /\
  fst (make_timer d s) =
    Ok {| expiry := time_point_plus rep (fst (now (world s))) d |}.
Proof.
  unfold make_timer. rewrite timer_of_duration_run. split; reflexivity.
Qed.

End timer_facts.

Section rdtscp_timer_facts.

Context {W : Type} {cpu : Cpu W}.

(** C9: with the clock of the time-stamp counter, on every target, the
    time remaining at a [now] after the expiry is neither zero nor
    negative: it is [expiry - now] modulo [2 ^ 64], that is [2 ^ 64]
    less the time elapsed since the expiry, a count of at least [2 ^ 63]
    ticks as long as no more than [2 ^ 63] ticks have elapsed. *)
Theorem rdtscp_remaining_wraps (p : platform) (tm : timer)
    (t : time_point) :
  in_range uint64_t (ticks (expiry tm)) ->
  in_range uint64_t (ticks t) ->
  ticks (expiry tm) < ticks t ->
  count (@remaining W (rdtscp_clock p) tm t) =
    (ticks (expiry tm) - ticks t) mod 2 ^ 64 /\
  count (@remaining W (rdtscp_clock p) tm t) =
    2 ^ 64 - (ticks t - ticks (expiry tm)) /\
  0 < count (@remaining W (rdtscp_clock p) tm t) < 2 ^ 64 /\
  (ticks t - ticks (expiry tm) <= 2 ^ 63 ->
   2 ^ 63 <= count (@remaining W (rdtscp_clock p) tm t)).
Proof.
  unfold in_range, uint64_t. intros He Ht Hlt.
  assert (Hc : count (@remaining W (rdtscp_clock p) tm t) =
               (ticks (expiry tm) - ticks t) mod 2 ^ 64) by reflexivity.
  assert (Hm : (ticks (expiry tm) - ticks t) mod 2 ^ 64 =
               2 ^ 64 - (ticks t - ticks (expiry tm))).
  { symmetry. apply (Z.mod_unique _ _ (-1)); lia. }
  rewrite Hc, Hm. repeat split; lia.
Qed.

End rdtscp_timer_facts.

(** ** Logs *)

Lemma invocations_app {exn : Type} (l l' : list (event exn)) :
  invocations (l ++ l') = (invocations l + invocations l')%nat.
Proof. unfold invocations. rewrite List.filter_app, length_app. reflexivity. Qed.

Lemma clock_reads_app {exn : Type} (l l' : list (event exn)) :
  clock_reads (l ++ l') = (clock_reads l + clock_reads l')%nat.
Proof. unfold clock_reads. rewrite List.filter_app, length_app. reflexivity. Qed.

(** ** Sorting *)

#[global] Instance duration_le_total : Total duration_le.
Proof.
  intros a b. unfold duration_le, duration_lt.
  destruct (Z.ltb_spec (count b) (count a)), (Z.ltb_spec (count a) (count b));
    auto; lia.
Qed.

Lemma duration_le_count (a b : duration) :
  duration_le a b <-> count a <= count b.
Proof. unfold duration_le, duration_lt. apply Z.ltb_ge. Qed.

Lemma Sorted_adjacent {A : Type} (R : relation A) (l : list A) :
  Sorted R l ->
  forall (i : nat) (a b : A), l !! i = Some a -> l !! S i = Some b -> R a b.
Proof.
  induction 1 as [|x l Hl IH Hx]; intros i a b Ha Hb.
  - discriminate.
  - destruct i as [|i].
    + simpl in Ha. injection Ha as ->.
      destruct Hx as [|y l' Hxy]; [discriminate|].
      simpl in Hb. injection Hb as ->. exact Hxy.
    + exact (IH i a b Ha Hb).
Qed.

Lemma std_sort_length (l : list duration) : length (std_sort l) = length l.
Proof. apply Permutation_length, merge_sort_Permutation. Qed.

Lemma std_sort_ascending (l : list duration) (i : nat) (a b : duration) :
  std_sort l !! i = Some a -> std_sort l !! S i = Some b -> count a <= count b.
Proof.
  intros Ha Hb. apply duration_le_count.
  apply (Sorted_adjacent duration_le (std_sort l)) with (i := i); auto.
  apply Sorted_merge_sort. apply _.
Qed.

(** ** [time] and [sample] *)

Section sampling_facts.

Context {W exn : Type} {C : Clock W}.
Variable function : Func W exn.

(** A measured call whose callable returns. *)
Lemma time_returned (s : machine W exn) (w1 : W) :
  function (snd (now (world s))) = (Returned, w1) ->
  time function s =
  (Ok (time_point_minus rep (fst (now w1)) (fst (now (world s)))),
   {| world := snd (now w1);
      log := log s ++ [EvNow (fst (now (world s))); EvCall Returned;
                       EvNow (fst (now w1))] |}).
Proof.
  intros Hf. unfold time, bind. rewrite clock_now_run.
  unfold call. cbn [world log]. rewrite Hf.
  rewrite clock_now_run. cbn [world log]. unfold ret.
  rewrite <- !app_assoc. reflexivity.
Qed.

(** A measured call whose callable throws. *)
Lemma time_threw (s : machine W exn) (e : exn) (w1 : W) :
  function (snd (now (world s))) = (Threw e, w1) ->
  time function s =
  (Raise e,
   {| world := w1;
      log := log s ++ [EvNow (fst (now (world s))); EvCall (Threw e)] |}).
Proof.
  intros Hf. unfold time, bind. rewrite clock_now_run.
  unfold call. cbn [world log]. rewrite Hf.
  rewrite <- !app_assoc. reflexivity.
Qed.

Lemma time_returned_world (s : machine W exn) :
  fst (function (snd (now (world s)))) = Returned ->
  exists (d : duration) (l : list (event exn)),
    time function s =
      (Ok d, {| world := world_after_time function (world s);
                log := log s ++ l |}) /\
    invocations l = 1%nat /\ clock_reads l = 2%nat.
Proof.
  intros Hf. destruct (function (snd (now (world s)))) as [o w1] eqn:E.
  simpl in Hf. subst o.
  eexists. eexists. rewrite (time_returned s w1 E).
  unfold world_after_time. rewrite E. cbn [snd].
  split; [reflexivity|]. split; reflexivity.
Qed.

(** The loop when each of its calls returns. *)
Lemma sample_loop_returns :
  forall (todo i : nat) (samples : list duration) (s : machine W exn),
  (forall j : nat, (j < todo)%nat ->
     fst (function (world_at_call function j (world s))) = Returned) ->
  exists (samples' : list duration) (s' : machine W exn),
    sample_loop function todo i samples s = (Ok samples', s') /\
    length samples' = length samples /\
    invocations (log s') = (invocations (log s) + todo)%nat /\
    clock_reads (log s') = (clock_reads (log s) + 2 * todo)%nat.
Proof.
  induction todo as [|todo IH]; intros i samples s Hret.
  - exists samples, s. cbn. repeat split; lia.
  - assert (H0 : fst (function (snd (now (world s)))) = Returned)
      by (apply (Hret 0%nat); lia).
    destruct (time_returned_world s H0) as (d & l & Ht & Hc & Hn).
    destruct (IH (S i) (<[i := d]> samples)
                 {| world := world_after_time function (world s);
                    log := log s ++ l |})
      as (samples' & s' & Hloop & Hlen & Hc' & Hn').
    { intros j Hj. cbn [world]. apply (Hret (S j)). lia. }
    exists samples', s'. cbn [sample_loop]. unfold bind at 1.
    rewrite Ht, Hloop. cbn [log] in Hc', Hn'.
    rewrite invocations_app in Hc'. rewrite clock_reads_app in Hn'.
    rewrite length_insert in Hlen.
    repeat split; [exact Hlen|lia|lia].
Qed.

(** The loop when the call number [j], counted from 0, throws. *)
Lemma sample_loop_threw (e : exn) (w_thrown : W) :
  forall (j todo i : nat) (samples : list duration) (s : machine W exn),
  (j < todo)%nat ->
  (forall j' : nat, (j' < j)%nat ->
     fst (function (world_at_call function j' (world s))) = Returned) ->
  function (world_at_call function j (world s)) = (Threw e, w_thrown) ->
  exists l : list (event exn),
    sample_loop function todo i samples s =
      (Raise e, {| world := w_thrown; log := log s ++ l |}) /\
    invocations l = S j /\
    clock_reads l = (2 * j + 1)%nat /\
    last l = Some (EvCall (Threw e)).
Proof.
  induction j as [|j IH]; intros todo i samples s Hlt Hbefore Hthrow;
    (destruct todo as [|todo]; [lia|]); cbn [sample_loop]; unfold bind at 1.
  - cbn [world_at_call] in Hthrow. rewrite (time_threw s e w_thrown Hthrow).
    eexists. split; [reflexivity|]. repeat split.
  - assert (H0 : fst (function (snd (now (world s)))) = Returned)
      by (apply (Hbefore 0%nat); lia).
    destruct (time_returned_world s H0) as (d & l & Ht & Hc & Hn).
    rewrite Ht.
    destruct (IH todo (S i) (<[i := d]> samples)
                 {| world := world_after_time function (world s);
                    log := log s ++ l |}) as (l' & Hloop & Hc' & Hn' & Hlast).
    + lia.
    + intros j' Hj'. cbn [world]. apply (Hbefore (S j')). lia.
    + cbn [world]. exact Hthrow.
    + rewrite Hloop. cbn [log]. exists (l ++ l').
      rewrite app_assoc. split; [reflexivity|].
      rewrite invocations_app, clock_reads_app.
      repeat split; [lia|lia|].
      destruct l' as [|ev l']; [discriminate|].
      rewrite last_app. rewrite Hlast. reflexivity.
Qed.

(** What the array held before the loop does not matter. *)
Lemma sample_loop_overwrites :
  forall (todo i : nat) (xs ys : list duration) (s : machine W exn),
  length xs = (i + todo)%nat -> length ys = (i + todo)%nat ->
  take i xs = take i ys ->
  sample_loop function todo i xs s = sample_loop function todo i ys s.
Proof.
  induction todo as [|todo IH]; intros i xs ys s Hx Hy Heq.
  - cbn. rewrite <- (take_ge xs i), <- (take_ge ys i) by lia.
    rewrite Heq. reflexivity.
  - cbn [sample_loop]. unfold bind.
    destruct (time function s) as [[d|e] s1]; [|reflexivity].
    apply IH.
    + rewrite length_insert. lia.
    + rewrite length_insert. lia.
    + rewrite (take_S_r (<[i := d]> xs) i d)
        by (apply list_lookup_insert_eq; lia).
      rewrite (take_S_r (<[i := d]> ys) i d)
        by (apply list_lookup_insert_eq; lia).
      rewrite !take_insert_ge by lia. rewrite Heq. reflexivity.
Qed.

(** X3: what the array [samples] holds before the loop never reaches the
    caller: whatever the uninitialised elements are, [sample<N>] gives the
    same result and leaves the machine in the same state, also when the
    callable throws. *)
Lemma sample_uninit_irrelevant (N : nat) (uninit uninit' : nat -> duration)
    (s : machine W exn) :
  sample N uninit function s = sample N uninit' function s.
Proof.
  unfold sample, bind.
  rewrite (sample_loop_overwrites N 0 (map uninit (seq 0 N))
             (map uninit' (seq 0 N)) s);
    [reflexivity| | |reflexivity];
    rewrite length_map, length_seq; reflexivity.
Qed.

End sampling_facts.

Section sampling_claims.

Context {W exn : Type} {C : Clock W}.

(** C1: when each of the [N] calls made returns, [sample<N>] returns [N]
    durations in ascending order, every one no greater than the next,
    and has called the callable [N] times; [sample<0>] returns the empty
    sequence and leaves the machine as it was, the callable not
    called. *)
Theorem sample_returns_sorted (N : nat) (uninit : nat -> duration)
    (function : Func W exn) (s : machine W exn) :
  (forall j : nat, (j < N)%nat ->
     fst (function (world_at_call function j (world s))) = Returned) ->
  (exists (samples : list duration) (s' : machine W exn),
     sample N uninit function s = (Ok samples, s') /\
     length samples = N /\
     (forall (i : nat) (a b : duration),
        samples !! i = Some a -> samples !! S i = Some b ->
        count a <= count b) /\
     invocations (log s') = (invocations (log s) + N)%nat) /\
  sample 0 uninit function s = (Ok [], s).
Proof.
  intros Hret. split; [|reflexivity].
  destruct (sample_loop_returns function N 0 (map uninit (seq 0 N)) s Hret)
    as (samples & s' & Hloop & Hlen & Hcalls & _).
  exists (std_sort samples), s'.
  unfold sample, bind. rewrite Hloop. unfold ret.
  split; [reflexivity|]. split; [|split].
  - rewrite std_sort_length, Hlen, length_map, length_seq. reflexivity.
  - apply std_sort_ascending.
  - exact Hcalls.
Qed.

(** C5: a callable that throws makes [time] throw the same exception, no
    duration returned, after one clock read and the call.  When the
    calls of [sample<N>] before the call number [j] (counted from 0, so
    the [j + 1]-th call) return and that one throws [e], [sample<N>]
    throws [e] and returns no sequence; the callable was called
    [j + 1] times and no more, the clock read [2 * j + 1] times, and the
    throwing call is the last thing that happened: the clock is not read
    after it. *)
Theorem callable_failure_propagates (N j : nat) (uninit : nat -> duration)
    (function : Func W exn) (e : exn) (w_thrown : W) (s : machine W exn) :
  (j < N)%nat ->
  (forall j' : nat, (j' < j)%nat ->
     fst (function (world_at_call function j' (world s))) = Returned) ->
  function (world_at_call function j (world s)) = (Threw e, w_thrown) ->
  (forall (s0 : machine W exn) (e0 : exn) (w0 : W),
     function (snd (now (world s0))) = (Threw e0, w0) ->
     time function s0 =
       (Raise e0,
        {| world := w0;
           log := log s0 ++ [EvNow (fst (now (world s0)));
                             EvCall (Threw e0)] |})) /\
  exists l : list (event exn),
    sample N uninit function s =
      (Raise e, {| world := w_thrown; log := log s ++ l |}) /\
    invocations l = S j /\
    clock_reads l = (2 * j + 1)%nat /\
    last l = Some (EvCall (Threw e)).
Proof.
  intros Hlt Hbefore Hthrow. split.
  - intros s0 e0 w0. apply time_threw.
  - destruct (sample_loop_threw function e w_thrown j N 0
                (map uninit (seq 0 N)) s Hlt Hbefore Hthrow)
      as (l & Hloop & Hrest).
    exists l. unfold sample, bind. rewrite Hloop. split; [reflexivity|].
    exact Hrest.
Qed.

End sampling_claims.

(** ** Default clocks *)

(** C6, as the header has it: [time] and [sample] default to the clock of
    the time-stamp counter, [timer] and [make_timer] to
    [std::chrono::system_clock]; a clock the caller writes is the one
    used. *)
Theorem default_clocks (c : clock_id) :
  time_Clock None = id_rdtscp_clock /\
  sample_Clock None = id_rdtscp_clock /\
  timer_Clock None = id_std_chrono_system_clock /\
  make_timer_Clock None = id_std_chrono_system_clock /\
  time_Clock (Some c) = c /\ sample_Clock (Some c) = c /\
  timer_Clock (Some c) = c /\ make_timer_Clock (Some c) = c.
Proof. repeat split. Qed.

(** C6 as claimed fails: not every template defaults to the clock of the
    time-stamp counter, the timer does not. *)
Lemma timer_default_is_not_rdtscp :
  ~ (timer_Clock None = id_rdtscp_clock /\
     make_timer_Clock None = id_rdtscp_clock /\
     time_Clock None = id_rdtscp_clock /\
     sample_Clock None = id_rdtscp_clock).
Proof. intros [H _]. discriminate H. Qed.

(** ** The theorems at work on the example machine *)

(** Three samples of [Example.work], from a counter about to wrap. *)
Lemma sample_returns_sorted_witness :
  (forall j : nat, (j < 3)%nat ->
     fst (Example.work
            (@world_at_call Z nat Example.clock Example.work j
               (world Example.boot))) = Returned) /\
  ((exists (samples : list duration) (s' : machine Z nat),
      @sample Z nat Example.clock 3 (fun _ => duration_zero) Example.work
        Example.boot = (Ok samples, s') /\
      length samples = 3%nat /\
      (forall (i : nat) (a b : duration),
         samples !! i = Some a -> samples !! S i = Some b ->
         count a <= count b) /\
      invocations (log s') = (invocations (log Example.boot) + 3)%nat) /\
   @sample Z nat Example.clock 0 (fun _ => duration_zero) Example.work
     Example.boot = (Ok [], Example.boot)).
Proof.
  split.
  - intros j Hj. reflexivity.
  - apply (@sample_returns_sorted Z nat Example.clock 3
             (fun _ => duration_zero) Example.work Example.boot).
    intros j Hj. reflexivity.
Defined.

(** Four samples of [Example.flaky], whose third call throws. *)
Lemma callable_failure_propagates_witness :
  (2 < 4)%nat /\
  (forall j' : nat, (j' < 2)%nat ->
     fst (Example.flaky
            (@world_at_call Z nat Example.clock Example.flaky j'
               (world Example.zero))) = Returned) /\
  Example.flaky
    (@world_at_call Z nat Example.clock Example.flaky 2 (world Example.zero))
    = (Threw 7%nat, 355) /\
  @time Z nat Example.clock Example.flaky {| world := 300; log := [] |} =
    (Raise 7%nat,
     {| world := 335;
        log := [EvNow (Example.at_ticks 300); EvCall (Threw 7%nat)] |}) /\
  (forall (s0 : machine Z nat) (e0 : nat) (w0 : Z),
     Example.flaky (snd (@now Z Example.clock (world s0))) = (Threw e0, w0) ->
     @time Z nat Example.clock Example.flaky s0 =
       (Raise e0,
        {| world := w0;
           log := log s0 ++ [EvNow (fst (@now Z Example.clock (world s0)));
                             EvCall (Threw e0)] |})) /\
  exists l : list (event nat),
    @sample Z nat Example.clock 4 (fun _ => duration_zero) Example.flaky
      Example.zero = (Raise 7%nat, {| world := 355; log := log Example.zero ++ l |}) /\
    invocations l = 3%nat /\
    clock_reads l = (2 * 2 + 1)%nat /\
    last l = Some (EvCall (Threw 7%nat)).
Proof.
  assert (Hlt : (2 < 4)%nat) by lia.
  assert (Hbefore : forall j' : nat, (j' < 2)%nat ->
            fst (Example.flaky
                   (@world_at_call Z nat Example.clock Example.flaky j'
                      (world Example.zero))) = Returned).
  { intros j' Hj'. destruct j' as [|[|j']]; [reflexivity|reflexivity|lia]. }
  assert (Hthrow : Example.flaky
            (@world_at_call Z nat Example.clock Example.flaky 2
               (world Example.zero)) = (Threw 7%nat, 355)) by reflexivity.
  split; [exact Hlt|]. split; [exact Hbefore|]. split; [exact Hthrow|].
  split.
  - exact (proj1 (@callable_failure_propagates Z nat Example.clock 4 2
                    (fun _ => duration_zero) Example.flaky 7%nat 355
                    Example.zero Hlt Hbefore Hthrow)
             {| world := 300; log := [] |} 7%nat 335 eq_refl).
  - exact (@callable_failure_propagates Z nat Example.clock 4 2
             (fun _ => duration_zero) Example.flaky 7%nat 355 Example.zero
             Hlt Hbefore Hthrow).
Defined.

(** A timer that expired at tick 5, asked at tick 7. *)
Lemma rdtscp_remaining_wraps_witness :
  in_range uint64_t (ticks (expiry (timer_of_time_point (Example.at_ticks 5)))) /\
  in_range uint64_t (ticks (Example.at_ticks 7)) /\
  ticks (expiry (timer_of_time_point (Example.at_ticks 5)))
    < ticks (Example.at_ticks 7) /\
  count (@remaining Z Example.clock (timer_of_time_point (Example.at_ticks 5))
           (Example.at_ticks 7)) = 18446744073709551614 /\
  count (@remaining Z (@rdtscp_clock Z Example.counter_cpu LINUX)
           (timer_of_time_point (Example.at_ticks 5)) (Example.at_ticks 7)) =
    (ticks (expiry (timer_of_time_point (Example.at_ticks 5)))
     - ticks (Example.at_ticks 7)) mod 2 ^ 64 /\
  count (@remaining Z (@rdtscp_clock Z Example.counter_cpu LINUX)
           (timer_of_time_point (Example.at_ticks 5)) (Example.at_ticks 7)) =
    2 ^ 64 - (ticks (Example.at_ticks 7)
              - ticks (expiry (timer_of_time_point (Example.at_ticks 5)))) /\
  0 < count (@remaining Z (@rdtscp_clock Z Example.counter_cpu LINUX)
               (timer_of_time_point (Example.at_ticks 5)) (Example.at_ticks 7))
    < 2 ^ 64 /\
  (ticks (Example.at_ticks 7)
   - ticks (expiry (timer_of_time_point (Example.at_ticks 5))) <= 2 ^ 63 ->
   2 ^ 63 <= count (@remaining Z (@rdtscp_clock Z Example.counter_cpu LINUX)
                      (timer_of_time_point (Example.at_ticks 5))
                      (Example.at_ticks 7))).
Proof.
  assert (He : in_range uint64_t
                 (ticks (expiry (timer_of_time_point (Example.at_ticks 5)))))
    by (cbv [in_range uint64_t ticks expiry timer_of_time_point
           Example.at_ticks time_since_epoch count]; lia).
  assert (Ht : in_range uint64_t (ticks (Example.at_ticks 7)))
    by (cbv [in_range uint64_t ticks expiry timer_of_time_point
           Example.at_ticks time_since_epoch count]; lia).
  assert (Hlt : ticks (expiry (timer_of_time_point (Example.at_ticks 5)))
                < ticks (Example.at_ticks 7)) by (cbv [in_range uint64_t ticks expiry timer_of_time_point
           Example.at_ticks time_since_epoch count]; lia).
  split; [exact He|]. split; [exact Ht|]. split; [exact Hlt|].
  split; [reflexivity|].
  exact (@rdtscp_remaining_wraps Z Example.counter_cpu LINUX
           (timer_of_time_point (Example.at_ticks 5)) (Example.at_ticks 7)
           He Ht Hlt).
Defined.

(** ** Runs on the example machine *)

Example sample_work_run :
  fst (@sample Z nat Example.clock 4 (fun _ => duration_zero) Example.work
         Example.boot) =
  Ok [ {| count := 402 |}; {| count := 858 |};
       {| count := 18446744073709551298 |};
       {| count := 18446744073709551570 |} ].
Proof. vm_compute. reflexivity. Qed.

Example sample_flaky_run :
  @sample Z nat Example.clock 4 (fun _ => duration_zero) Example.flaky
    Example.zero =
  (Raise 7%nat,
   {| world := 355;
      log := [ EvNow (Example.at_ticks 0); EvCall Returned;
               EvNow (Example.at_ticks 130);
               EvNow (Example.at_ticks 160); EvCall Returned;
               EvNow (Example.at_ticks 290);
               EvNow (Example.at_ticks 320); EvCall (Threw 7%nat) ] |}).
Proof. vm_compute. reflexivity. Qed.

Example now_run :
  map (fun p => @rdtscp_clock.now Z Example.counter_cpu p 7
                  (2 ^ 64 + 2 ^ 40 + 5)) [APPLE; LINUX; WIN32] =
  [ ((Example.at_ticks (2 ^ 40 + 5), 3), 2 ^ 64 + 2 ^ 40 + 35);
    ((Example.at_ticks (2 ^ 40 + 5), 3), 2 ^ 64 + 2 ^ 40 + 35);
    ((Example.at_ticks (2 ^ 40 + 5), 7), 2 ^ 64 + 2 ^ 40 + 35) ].
Proof. vm_compute. reflexivity. Qed.

Example done_run :
  map (fun n => @done (timer_of_time_point (Example.at_ticks 5))
                  (Example.at_ticks n)) [4; 5; 6] = [false; true; true].
Proof. reflexivity. Qed.

(** * Further properties of the header *)

(** ** Arithmetic in a [rep] *)

Lemma wrap_in_range (ty : int_type) (z : Z) : in_range ty z -> wrap ty z = z.
Proof.
  destruct ty as [w|w]; simpl; intros Hz.
  - apply Z.mod_small. exact Hz.
  - destruct (Z_lt_le_dec 0 w) as [Hw|Hw].
    + assert (Hp : 2 ^ w = 2 * 2 ^ (w - 1)).
      { replace w with (Z.succ (w - 1)) at 1 by lia.
        apply Z.pow_succ_r. lia. }
      rewrite Hp. rewrite Z.mod_small; lia.
    + assert (H0 : 2 ^ (w - 1) = 0) by (apply Z.pow_neg_r; lia).
      lia.
Qed.

(** Adding [d] and taking the start away again leaves [d], whether or not
    the sum wrapped. *)
Lemma wrap_add_sub (ty : int_type) (a d : Z) :
  wrap ty (wrap ty (a + d) - a) = wrap ty d.
Proof.
  destruct ty as [w|w]; simpl.
  - rewrite Zminus_mod_idemp_l. f_equal. lia.
  - f_equal.
    replace ((a + d + 2 ^ (w - 1)) mod 2 ^ w - 2 ^ (w - 1) - a + 2 ^ (w - 1))
      with ((a + d + 2 ^ (w - 1)) mod 2 ^ w - a) by lia.
    rewrite Zminus_mod_idemp_l. f_equal. lia.
Qed.

(** ** Sorted samples *)

#[global] Instance duration_le_trans : Transitive duration_le.
Proof.
  intros a b c Hab Hbc. apply duration_le_count in Hab, Hbc.
  apply duration_le_count. lia.
Qed.

Lemma StronglySorted_ordered {A : Type} (R : relation A) (l : list A) :
  StronglySorted R l ->
  forall (i j : nat) (a b : A),
    (i < j)%nat -> l !! i = Some a -> l !! j = Some b -> R a b.
Proof.
  induction 1 as [|x l Hl IH Hx]; intros i j a b Hij Ha Hb.
  - discriminate.
  - destruct j as [|j]; [lia|]. simpl in Hb.
    destruct i as [|i].
    + simpl in Ha. injection Ha as ->.
      rewrite Forall_forall in Hx. apply Hx.
      apply (list_elem_of_lookup_2 l j b Hb).
    + simpl in Ha. apply (IH i j a b); [lia|exact Ha|exact Hb].
Qed.

Lemma std_sort_ordered (l : list duration) (i j : nat) (a b : duration) :
  (i <= j)%nat ->
  std_sort l !! i = Some a -> std_sort l !! j = Some b -> count a <= count b.
Proof.
  intros Hij Ha Hb.
  destruct (Nat.eq_dec i j) as [->|Hne].
  - rewrite Ha in Hb. injection Hb as ->. lia.
  - apply duration_le_count.
    apply (StronglySorted_ordered duration_le (std_sort l)) with i j;
      [|lia|exact Ha|exact Hb].
    apply StronglySorted_merge_sort; apply _.
Qed.

(** ** What [sample] measures *)

Section sampling_more.

Context {W exn : Type} {C : Clock W}.
Variable function : Func W exn.

Lemma clock_reads_measured (rs : list (time_point * time_point)) :
  clock_reads (concat (map (@measured_events exn) rs)) = (2 * length rs)%nat.
Proof.
  induction rs as [|r rs IH]; [reflexivity|].
  cbn [map concat]. rewrite clock_reads_app, IH. cbn. lia.
Qed.

Lemma invocations_measured (rs : list (time_point * time_point)) :
  invocations (concat (map (@measured_events exn) rs)) = length rs.
Proof.
  induction rs as [|r rs IH]; [reflexivity|].
  cbn [map concat]. rewrite invocations_app, IH. reflexivity.
Qed.

(** The loop fills the array from [i] on with the measurements, in the
    order of the calls, and keeps what is before [i]. *)
Lemma sample_loop_measures :
  forall (todo i : nat) (samples : list duration) (s : machine W exn),
  length samples = (i + todo)%nat ->
  (forall j : nat, (j < todo)%nat ->
     fst (function (world_at_call function j (world s))) = Returned) ->
  exists (rs : list (time_point * time_point)) (s' : machine W exn),
    sample_loop function todo i samples s =
      (Ok (take i samples ++ map measurement rs), s') /\
    length rs = todo /\
    log s' = log s ++ concat (map measured_events rs).
Proof.
  induction todo as [|todo IH]; intros i samples s Hlen Hret.
  - exists [], s. cbn. rewrite !app_nil_r, take_ge by lia. auto.
  - destruct (function (snd (now (world s)))) as [o w1] eqn:E.
    assert (H0 : o = Returned).
    { specialize (Hret 0%nat). cbn [world_at_call] in Hret.
      rewrite E in Hret. apply Hret. lia. }
    subst o.
    pose proof (time_returned function s w1 E) as Ht.
    set (r := (fst (now (world s)), fst (now w1))).
    set (s1 := {| world := snd (now w1);
                  log := log s ++ [EvNow (fst (now (world s)));
                                   EvCall Returned; EvNow (fst (now w1))] |}).
    fold s1 in Ht.
    destruct (IH (S i) (<[i := measurement r]> samples) s1)
      as (rs & s' & Hloop & Hrs & Hlog).
    { rewrite length_insert. lia. }
    { intros j Hj. specialize (Hret (S j)). cbn [world_at_call] in Hret.
      unfold world_after_time in Hret. rewrite E in Hret.
      apply Hret. lia. }
    exists (r :: rs), s'. cbn [sample_loop]. unfold bind at 1.
    rewrite Ht. change (time_point_minus rep (fst (now w1)) (fst (now (world s))))
      with (measurement r).
    rewrite Hloop.
    rewrite (take_S_r (<[i := measurement r]> samples) i (measurement r))
      by (apply list_lookup_insert_eq; lia).
    rewrite take_insert_ge by lia.
    cbn [map concat length]. rewrite <- app_assoc.
    split; [reflexivity|]. split; [lia|].
    rewrite Hlog. unfold s1. cbn [log]. rewrite <- app_assoc. reflexivity.
Qed.

(** X1: when its [N] calls return, [sample<N>] does [N] times the same
    thing, one after the other: it reads the clock, calls the callable,
    reads the clock again.  The loop leaves the array holding the [N]
    differences [stop - start] of these pairs of readings, the one of call
    [i] at index [i]; what [sample<N>] returns is the sort of that array,
    a rearrangement of it, and the clock was read [2 * N] times. *)
Theorem sample_measures (N : nat) (uninit : nat -> duration)
    (s : machine W exn) :
  (forall j : nat, (j < N)%nat ->
     fst (function (world_at_call function j (world s))) = Returned) ->
  exists (rs : list (time_point * time_point)) (s' : machine W exn),
    sample_loop function N 0 (map uninit (seq 0 N)) s =
      (Ok (map measurement rs), s') /\
    sample N uninit function s = (Ok (std_sort (map measurement rs)), s') /\
    length rs = N /\
    log s' = log s ++ concat (map measured_events rs) /\
    std_sort (map measurement rs) ≡ₚ map measurement rs /\
    clock_reads (log s') = (clock_reads (log s) + 2 * N)%nat.
Proof.
  intros Hret.
  destruct (sample_loop_measures N 0 (map uninit (seq 0 N)) s)
    as (rs & s' & Hloop & Hrs & Hlog).
  { rewrite length_map, length_seq. reflexivity. }
  { exact Hret. }
  cbn [take app] in Hloop.
  exists rs, s'. unfold sample, bind. rewrite Hloop. unfold ret.
  split; [reflexivity|]. split; [reflexivity|].
  split; [exact Hrs|]. split; [exact Hlog|].
  split; [apply merge_sort_Permutation|].
  rewrite Hlog, clock_reads_app, clock_reads_measured, Hrs. reflexivity.
Qed.

Lemma sample_loop_length :
  forall (todo i : nat) (samples out : list duration) (s s' : machine W exn),
  sample_loop function todo i samples s = (Ok out, s') ->
  length out = length samples.
Proof.
  induction todo as [|todo IH]; intros i samples out s s' Hloop.
  - cbn in Hloop. injection Hloop as <- _. reflexivity.
  - cbn [sample_loop] in Hloop. unfold bind at 1 in Hloop.
    destruct (time function s) as [[d|e] s1]; [|discriminate].
    apply IH in Hloop. rewrite length_insert in Hloop. exact Hloop.
Qed.

(** X2: whenever [sample<N>] returns a sequence, the sequence has [N]
    elements and is in order as a whole: an element is no greater than any
    element after it, so the first is the least measurement and the last
    the greatest. *)
Theorem sample_ordered (N : nat) (uninit : nat -> duration)
    (s s' : machine W exn) (samples : list duration) :
  sample N uninit function s = (Ok samples, s') ->
  length samples = N /\
  forall (i j : nat) (a b : duration),
    (i <= j)%nat -> samples !! i = Some a -> samples !! j = Some b ->
    count a <= count b.
Proof.
  unfold sample, bind. intros Hs.
  destruct (sample_loop function N 0 (map uninit (seq 0 N)) s)
    as [[l|e] s1] eqn:Hloop; [|discriminate].
  unfold ret in Hs. injection Hs as <- _.
  apply sample_loop_length in Hloop.
  rewrite length_map, length_seq in Hloop.
  split.
  - rewrite std_sort_length. exact Hloop.
  - intros i j a b. apply std_sort_ordered.
Qed.

End sampling_more.

(** ** Timers over any clock *)

Section timer_more.

Context {W exn : Type} {C : Clock W}.

(** X4: asked at the very time of its construction, a timer made from the
    duration [d] has [d] remaining, also when adding [d] to the clock's
    time wrapped around the [rep]. *)
Theorem timer_remaining_at_construction (d : duration) (s : machine W exn) :
  in_range rep (count d) ->
  exists (tm : timer) (s' : machine W exn),
    timer_of_duration d s = (Ok tm, s') /\
    remaining tm (fst (now (world s))) = d.
Proof.
  intros Hd. eexists. eexists.
  split; [apply timer_of_duration_run|].
  unfold remaining, time_point_minus, time_point_plus, duration_minus,
    duration_plus.
  cbn [expiry time_since_epoch count].
  rewrite wrap_add_sub, (wrap_in_range _ _ Hd).
  destruct d. reflexivity.
Qed.

(** X5: a timer that is done at some time is done at every later time,
    and one that is not done was not done at any earlier time. *)
Theorem timer_done_monotone (tm : timer) (t t' : time_point) :
  ticks t <= ticks t' ->
  (done tm t = true -> done tm t' = true) /\
  (done tm t' = false -> done tm t = false).
Proof.
  intros Hle. unfold done. rewrite !time_point_ge_ticks.
  split; intros H.
  - apply Z.leb_le. apply Z.leb_le in H. lia.
  - apply Z.leb_gt. apply Z.leb_gt in H. lia.
Qed.

(** X10: a timer made with the zero duration and asked at once, without
    an argument, is done, provided the clock has not gone back between the
    two readings; the two calls read the clock once each. *)
Theorem timer_zero_done_at_once (s : machine W exn) :
  in_range rep (ticks (fst (now (world s)))) ->
  ticks (fst (now (world s))) <= ticks (fst (now (snd (now (world s))))) ->
  exists s' : machine W exn,
    (do tm <- timer_of_duration duration_zero ;; done_now tm) s
      = (Ok true, s') /\
    log s' = log s ++ [EvNow (fst (now (world s)));
                       EvNow (fst (now (snd (now (world s)))))].
Proof.
  intros Hr Hle. unfold bind at 1.
  rewrite timer_of_duration_run, done_now_run. cbn [world log].
  assert (Hd : done {| expiry := time_point_plus rep (fst (now (world s)))
                                   duration_zero |}
                 (fst (now (snd (now (world s))))) = true).
  { unfold done. rewrite time_point_ge_ticks.
    apply Z.leb_le. unfold ticks at 1.
    cbn [expiry time_point_plus time_since_epoch duration_plus count
         duration_zero].
    rewrite Z.add_0_r. fold (ticks (fst (now (world s)))).
    rewrite (wrap_in_range _ _ Hr). exact Hle. }
  rewrite Hd. eexists. split; [reflexivity|].
  cbn [log]. rewrite <- app_assoc. reflexivity.
Qed.

End timer_more.

(** ** Clocks of unsigned ticks *)

Section unsigned_more.

Context {W exn : Type} {C : Clock W}.

(** X6: with a clock whose [rep] is unsigned, [time] of a callable that
    returns gives the number of ticks from the first reading up to the
    second: [stop - start] when the second is not below the first, and
    [stop - start + 2 ^ bits] when the counter has wrapped around between
    them.  A wrap of the counter does not spoil the measurement, and the
    result is never negative. *)
Theorem unsigned_time_elapsed (bits : Z) (function : Func W exn)
    (s : machine W exn) (w1 : W) :
  rep = unsigned_int bits ->
  function (snd (now (world s))) = (Returned, w1) ->
  in_range (unsigned_int bits) (ticks (fst (now (world s)))) ->
  in_range (unsigned_int bits) (ticks (fst (now w1))) ->
  fst (time function s) =
    Ok {| count :=
            if ticks (fst (now (world s))) <=? ticks (fst (now w1))
            then ticks (fst (now w1)) - ticks (fst (now (world s)))
            else ticks (fst (now w1)) - ticks (fst (now (world s)))
                 + 2 ^ bits |}.
Proof.
  intros Hrep Hf Hstart Hstop. rewrite (time_returned function s w1 Hf).
  cbn [fst]. unfold time_point_minus, duration_minus. rewrite Hrep.
  fold (ticks (fst (now w1))). fold (ticks (fst (now (world s)))).
  cbn [wrap in_range] in *. f_equal. f_equal.
  destruct (Z.leb_spec (ticks (fst (now (world s)))) (ticks (fst (now w1)))).
  - apply Z.mod_small. lia.
  - symmetry. apply (Z.mod_unique _ _ (-1)); lia.
Qed.

(** X7: with a clock whose [rep] is unsigned, a timer made from a
    duration [d] that stays below [2 ^ bits] when added to the reading of
    the constructor expires exactly [d] ticks after that reading: it is
    done at the times from there on and at no time before. *)
Theorem unsigned_timer_deadline (bits : Z) (d : duration)
    (s : machine W exn) :
  rep = unsigned_int bits ->
  0 <= ticks (fst (now (world s))) ->
  0 <= count d ->
  ticks (fst (now (world s))) + count d < 2 ^ bits ->
  exists (tm : timer) (s' : machine W exn),
    timer_of_duration d s = (Ok tm, s') /\
    ticks (expiry tm) = ticks (fst (now (world s))) + count d /\
    forall t : time_point,
      done tm t = true <-> ticks (fst (now (world s))) + count d <= ticks t.
Proof.
  intros Hrep Ht Hd Hfit.
  eexists. eexists. split; [apply timer_of_duration_run|].
  assert (He : ticks (time_point_plus rep (fst (now (world s))) d)
               = ticks (fst (now (world s))) + count d).
  { unfold time_point_plus, duration_plus. rewrite Hrep.
    unfold ticks. cbn [time_since_epoch count wrap].
    apply Z.mod_small. unfold ticks in Ht, Hfit. lia. }
  cbn [expiry]. split; [exact He|].
  intros t. unfold done. cbn [expiry]. rewrite time_point_ge_ticks, He.
  apply Z.leb_le.
Qed.

(** X8: with a clock whose [rep] is unsigned, a timer made from a
    duration that carries the reading of the constructor to [2 ^ bits] or
    beyond gets an expiry wrapped around to before that reading, and so is
    done from the start. *)
Theorem unsigned_timer_overflow_done (bits : Z) (d : duration)
    (s : machine W exn) :
  rep = unsigned_int bits ->
  in_range (unsigned_int bits) (ticks (fst (now (world s)))) ->
  in_range (unsigned_int bits) (count d) ->
  2 ^ bits <= ticks (fst (now (world s))) + count d ->
  exists (tm : timer) (s' : machine W exn),
    timer_of_duration d s = (Ok tm, s') /\
    ticks (expiry tm) = ticks (fst (now (world s))) + count d - 2 ^ bits /\
    ticks (expiry tm) < ticks (fst (now (world s))) /\
    done tm (fst (now (world s))) = true.
Proof.
  cbn [in_range]. intros Hrep Ht Hd Hover.
  eexists. eexists. split; [apply timer_of_duration_run|].
  assert (He : ticks (time_point_plus rep (fst (now (world s))) d)
               = ticks (fst (now (world s))) + count d - 2 ^ bits).
  { unfold time_point_plus, duration_plus. rewrite Hrep.
    unfold ticks. cbn [time_since_epoch count wrap].
    symmetry. apply (Z.mod_unique _ _ 1); unfold ticks in Ht, Hover; lia. }
  cbn [expiry]. split; [exact He|]. split; [rewrite He; lia|].
  unfold done. cbn [expiry]. rewrite time_point_ge_ticks, He.
  apply Z.leb_le. lia.
Qed.

End unsigned_more.

(** ** Timing with the time-stamp counter *)

Section rdtscp_more.

Context {W exn : Type} {cpu : Cpu W}.

Lemma asm_now_run (s : machine W exn) :
  asm_now s =
  (Ok (Z.shiftr (TSC (world s)) 32 mod 2 ^ 32, TSC (world s) mod 2 ^ 32,
       TSC_AUX (world s) mod 2 ^ 32),
   {| world := retire (world s);
      log := log s ++
        [EvNow {| time_since_epoch :=
                    {| count := TSC (world s) mod 2 ^ 64 |} |}] |}).
Proof.
  unfold asm_now, rdtscp_clock.asm_rdtscp, rdtscp_insn.
  cbn [EDX EAX ECX fst snd]. rewrite combine_counter. reflexivity.
Qed.

(** With [start] out of [RCX], the compiled [time] is the [time] of the
    template. *)
Lemma time_rdtscp_elsewhere (p : platform) (function : Func W exn)
    (s : machine W exn) :
  time_rdtscp p start_elsewhere function s =
  @time W exn (rdtscp_clock p) function s.
Proof.
  destruct p; [| |reflexivity];
    unfold time_rdtscp, time, bind;
    rewrite asm_now_run, clock_now_run;
    cbn [now rdtscp_clock]; rewrite !rdtscp_now_value; cbn [fst snd];
    unfold call; cbn [world log];
    (destruct (function (retire (world s))) as [[|e] w1]; [|reflexivity]);
    rewrite asm_now_run, clock_now_run;
    cbn [world log now rdtscp_clock]; rewrite !rdtscp_now_value;
    cbn [fst snd]; rewrite !combine_counter; reflexivity.
Qed.


(** X9: with the clock of the time-stamp counter, while a timer is not
    done what remains is the exact number of ticks to the expiry, more
    than zero; and nothing remains at the expiry only. *)
Theorem rdtscp_remaining_before_expiry (p : platform) (tm : timer)
    (t : time_point) :
  in_range uint64_t (ticks (expiry tm)) ->
  in_range uint64_t (ticks t) ->
  (done tm t = false ->
   count (@remaining W (rdtscp_clock p) tm t) = ticks (expiry tm) - ticks t /\
   0 < count (@remaining W (rdtscp_clock p) tm t)) /\
  (count (@remaining W (rdtscp_clock p) tm t) = 0 <->
   ticks t = ticks (expiry tm)).
Proof.
  unfold in_range, uint64_t. intros He Ht.
  assert (Hc : count (@remaining W (rdtscp_clock p) tm t) =
               (ticks (expiry tm) - ticks t) mod 2 ^ 64) by reflexivity.
  rewrite Hc. split.
  - unfold done. rewrite time_point_ge_ticks. intros Hnd.
    apply Z.leb_gt in Hnd. rewrite Z.mod_small by lia. lia.
  - destruct (Z_lt_le_dec (ticks (expiry tm)) (ticks t)) as [Hlt|Hge].
    + assert (Hm : (ticks (expiry tm) - ticks t) mod 2 ^ 64 =
                   2 ^ 64 - (ticks t - ticks (expiry tm))).
      { symmetry. apply (Z.mod_unique _ _ (-1)); lia. }
      rewrite Hm. lia.
    + rewrite Z.mod_small by lia. lia.
Qed.

End rdtscp_more.

(** ** The further theorems at work on the example machines *)

Lemma sample_measures_witness :
  (forall j : nat, (j < 3)%nat ->
     fst (Example.work
            (@world_at_call Z nat Example.clock Example.work j
               (world Example.boot))) = Returned) /\
  exists (rs : list (time_point * time_point)) (s' : machine Z nat),
    @sample_loop Z nat Example.clock Example.work 3 0
      (map (fun _ => duration_zero) (seq 0 3)) Example.boot
      = (Ok (map (@measurement Z Example.clock) rs), s') /\
    @sample Z nat Example.clock 3 (fun _ => duration_zero) Example.work
      Example.boot
      = (Ok (std_sort (map (@measurement Z Example.clock) rs)), s') /\
    length rs = 3%nat /\
    log s' = log Example.boot ++ concat (map measured_events rs) /\
    std_sort (map (@measurement Z Example.clock) rs)
      ≡ₚ map (@measurement Z Example.clock) rs /\
    clock_reads (log s') = (clock_reads (log Example.boot) + 2 * 3)%nat.
Proof.
  split.
  - intros j Hj. reflexivity.
  - apply (@sample_measures Z nat Example.clock Example.work 3
             (fun _ => duration_zero) Example.boot).
    intros j Hj. reflexivity.
Defined.

Lemma sample_ordered_witness :
  @sample Z nat Example.clock 2 (fun _ => duration_zero) Lab.spin Example.zero
    = (Ok [ {| count := 130 |}; {| count := 130 |} ],
       {| world := 320;
          log := [ EvNow (Example.at_ticks 0); EvCall Returned;
                   EvNow (Example.at_ticks 130);
                   EvNow (Example.at_ticks 160); EvCall Returned;
                   EvNow (Example.at_ticks 290) ] |}) /\
  (length [ {| count := 130 |}; {| count := 130 |} ] = 2%nat /\
   forall (i j : nat) (a b : duration),
     (i <= j)%nat ->
     [ {| count := 130 |}; {| count := 130 |} ] !! i = Some a ->
     [ {| count := 130 |}; {| count := 130 |} ] !! j = Some b ->
     count a <= count b).
Proof.
  assert (Hrun :
    @sample Z nat Example.clock 2 (fun _ => duration_zero) Lab.spin
      Example.zero
    = (Ok [ {| count := 130 |}; {| count := 130 |} ],
       {| world := 320;
          log := [ EvNow (Example.at_ticks 0); EvCall Returned;
                   EvNow (Example.at_ticks 130);
                   EvNow (Example.at_ticks 160); EvCall Returned;
                   EvNow (Example.at_ticks 290) ] |}))
    by (vm_compute; reflexivity).
  split; [exact Hrun|].
  exact (@sample_ordered Z nat Example.clock Lab.spin 2
           (fun _ => duration_zero) Example.zero _ _ Hrun).
Defined.

Lemma timer_remaining_at_construction_witness :
  in_range (@rep Z Example.clock) (count {| count := 100 |}) /\
  exists (tm : timer) (s' : machine Z nat),
    @timer_of_duration Z nat Example.clock {| count := 100 |} Lab.near_wrap
      = (Ok tm, s') /\
    @remaining Z Example.clock tm
      (fst (@now Z Example.clock (world Lab.near_wrap))) = {| count := 100 |}.
Proof.
  assert (Hd : in_range (@rep Z Example.clock) (count {| count := 100 |}))
    by (vm_compute; split; [discriminate|reflexivity]).
  split; [exact Hd|].
  exact (@timer_remaining_at_construction Z nat Example.clock
           {| count := 100 |} Lab.near_wrap Hd).
Defined.

Lemma timer_done_monotone_witness :
  ticks (Example.at_ticks 5) <= ticks (Example.at_ticks 9) /\
  (done (timer_of_time_point (Example.at_ticks 5)) (Example.at_ticks 5) = true ->
   done (timer_of_time_point (Example.at_ticks 5)) (Example.at_ticks 9) = true) /\
  (done (timer_of_time_point (Example.at_ticks 5)) (Example.at_ticks 9) = false ->
   done (timer_of_time_point (Example.at_ticks 5)) (Example.at_ticks 5) = false).
Proof.
  assert (Hle : ticks (Example.at_ticks 5) <= ticks (Example.at_ticks 9))
    by (vm_compute; discriminate).
  split; [exact Hle|].
  exact (timer_done_monotone (timer_of_time_point (Example.at_ticks 5))
           (Example.at_ticks 5) (Example.at_ticks 9) Hle).
Defined.

Lemma timer_zero_done_at_once_witness :
  in_range (@rep Z Example.clock)
    (ticks (fst (@now Z Example.clock (world Example.zero)))) /\
  ticks (fst (@now Z Example.clock (world Example.zero)))
    <= ticks (fst (@now Z Example.clock
                     (snd (@now Z Example.clock (world Example.zero))))) /\
  exists s' : machine Z nat,
    (do tm <- @timer_of_duration Z nat Example.clock duration_zero ;;
     @done_now Z nat Example.clock tm) Example.zero = (Ok true, s') /\
    log s' = log Example.zero ++
      [EvNow (fst (@now Z Example.clock (world Example.zero)));
       EvNow (fst (@now Z Example.clock
                     (snd (@now Z Example.clock (world Example.zero)))))].
Proof.
  assert (Hr : in_range (@rep Z Example.clock)
                 (ticks (fst (@now Z Example.clock (world Example.zero)))))
    by (vm_compute; split; [discriminate|reflexivity]).
  assert (Hle : ticks (fst (@now Z Example.clock (world Example.zero)))
                <= ticks (fst (@now Z Example.clock
                                 (snd (@now Z Example.clock
                                         (world Example.zero))))))
    by (vm_compute; discriminate).
  split; [exact Hr|]. split; [exact Hle|].
  exact (@timer_zero_done_at_once Z nat Example.clock Example.zero Hr Hle).
Defined.

Lemma unsigned_time_elapsed_witness :
  @rep Z Lab.counter_clock = unsigned_int 64 /\
  Lab.spin (snd (@now Z Lab.counter_clock (world Lab.near_wrap)))
    = (Returned, 2 ^ 64 + 110) /\
  in_range (unsigned_int 64)
    (ticks (fst (@now Z Lab.counter_clock (world Lab.near_wrap)))) /\
  in_range (unsigned_int 64)
    (ticks (fst (@now Z Lab.counter_clock (2 ^ 64 + 110)))) /\
  fst (@time Z nat Lab.counter_clock Lab.spin Lab.near_wrap) =
    Ok {| count := 130 |}.
Proof.
  assert (Hrep : @rep Z Lab.counter_clock = unsigned_int 64) by reflexivity.
  assert (Hf : Lab.spin (snd (@now Z Lab.counter_clock (world Lab.near_wrap)))
               = (Returned, 2 ^ 64 + 110)) by (vm_compute; reflexivity).
  assert (H0 : in_range (unsigned_int 64)
                 (ticks (fst (@now Z Lab.counter_clock (world Lab.near_wrap)))))
    by (vm_compute; split; [discriminate|reflexivity]).
  assert (H1 : in_range (unsigned_int 64)
                 (ticks (fst (@now Z Lab.counter_clock (2 ^ 64 + 110)))))
    by (vm_compute; split; [discriminate|reflexivity]).
  split; [exact Hrep|]. split; [exact Hf|]. split; [exact H0|].
  split; [exact H1|].
  exact (@unsigned_time_elapsed Z nat Lab.counter_clock 64 Lab.spin
           Lab.near_wrap (2 ^ 64 + 110) Hrep Hf H0 H1).
Defined.

Lemma unsigned_timer_deadline_witness :
  @rep Z Lab.counter_clock = unsigned_int 64 /\
  0 <= ticks (fst (@now Z Lab.counter_clock (world Example.zero))) /\
  0 <= count {| count := 100 |} /\
  ticks (fst (@now Z Lab.counter_clock (world Example.zero)))
    + count {| count := 100 |} < 2 ^ 64 /\
  exists (tm : timer) (s' : machine Z nat),
    @timer_of_duration Z nat Lab.counter_clock {| count := 100 |} Example.zero
      = (Ok tm, s') /\
    ticks (expiry tm) =
      ticks (fst (@now Z Lab.counter_clock (world Example.zero)))
      + count {| count := 100 |} /\
    forall t : time_point,
      done tm t = true <->
      ticks (fst (@now Z Lab.counter_clock (world Example.zero)))
      + count {| count := 100 |} <= ticks t.
Proof.
  assert (Hrep : @rep Z Lab.counter_clock = unsigned_int 64) by reflexivity.
  assert (Ht : 0 <= ticks (fst (@now Z Lab.counter_clock (world Example.zero))))
    by (vm_compute; discriminate).
  assert (Hd : 0 <= count {| count := 100 |}) by (vm_compute; discriminate).
  assert (Hfit : ticks (fst (@now Z Lab.counter_clock (world Example.zero)))
                 + count {| count := 100 |} < 2 ^ 64)
    by (vm_compute; reflexivity).
  split; [exact Hrep|]. split; [exact Ht|]. split; [exact Hd|].
  split; [exact Hfit|].
  exact (@unsigned_timer_deadline Z nat Lab.counter_clock 64
           {| count := 100 |} Example.zero Hrep Ht Hd Hfit).
Defined.

Lemma unsigned_timer_overflow_done_witness :
  @rep Z Lab.counter_clock = unsigned_int 64 /\
  in_range (unsigned_int 64)
    (ticks (fst (@now Z Lab.counter_clock (world Lab.near_wrap)))) /\
  in_range (unsigned_int 64) (count {| count := 100 |}) /\
  2 ^ 64 <= ticks (fst (@now Z Lab.counter_clock (world Lab.near_wrap)))
            + count {| count := 100 |} /\
  exists (tm : timer) (s' : machine Z nat),
    @timer_of_duration Z nat Lab.counter_clock {| count := 100 |} Lab.near_wrap
      = (Ok tm, s') /\
    ticks (expiry tm) =
      ticks (fst (@now Z Lab.counter_clock (world Lab.near_wrap)))
      + count {| count := 100 |} - 2 ^ 64 /\
    ticks (expiry tm) <
      ticks (fst (@now Z Lab.counter_clock (world Lab.near_wrap))) /\
    done tm (fst (@now Z Lab.counter_clock (world Lab.near_wrap))) = true.
Proof.
  assert (Hrep : @rep Z Lab.counter_clock = unsigned_int 64) by reflexivity.
  assert (Ht : in_range (unsigned_int 64)
                 (ticks (fst (@now Z Lab.counter_clock (world Lab.near_wrap)))))
    by (vm_compute; split; [discriminate|reflexivity]).
  assert (Hd : in_range (unsigned_int 64) (count {| count := 100 |}))
    by (vm_compute; split; [discriminate|reflexivity]).
  assert (Hover : 2 ^ 64 <=
                  ticks (fst (@now Z Lab.counter_clock (world Lab.near_wrap)))
                  + count {| count := 100 |}) by (vm_compute; discriminate).
  split; [exact Hrep|]. split; [exact Ht|]. split; [exact Hd|].
  split; [exact Hover|].
  exact (@unsigned_timer_overflow_done Z nat Lab.counter_clock 64
           {| count := 100 |} Lab.near_wrap Hrep Ht Hd Hover).
Defined.


Lemma rdtscp_remaining_before_expiry_witness :
  in_range uint64_t (ticks (expiry (timer_of_time_point (Example.at_ticks 9)))) /\
  in_range uint64_t (ticks (Example.at_ticks 5)) /\
  (done (timer_of_time_point (Example.at_ticks 9)) (Example.at_ticks 5) = false ->
   count (@remaining Z (@rdtscp_clock Z Example.counter_cpu LINUX)
            (timer_of_time_point (Example.at_ticks 9)) (Example.at_ticks 5))
   = ticks (expiry (timer_of_time_point (Example.at_ticks 9)))
     - ticks (Example.at_ticks 5) /\
   0 < count (@remaining Z (@rdtscp_clock Z Example.counter_cpu LINUX)
                (timer_of_time_point (Example.at_ticks 9))
                (Example.at_ticks 5))) /\
  (count (@remaining Z (@rdtscp_clock Z Example.counter_cpu LINUX)
            (timer_of_time_point (Example.at_ticks 9)) (Example.at_ticks 5))
   = 0 <->
   ticks (Example.at_ticks 5)
   = ticks (expiry (timer_of_time_point (Example.at_ticks 9)))).
Proof.
  assert (He : in_range uint64_t
                 (ticks (expiry (timer_of_time_point (Example.at_ticks 9)))))
    by (vm_compute; split; [discriminate|reflexivity]).
  assert (Ht : in_range uint64_t (ticks (Example.at_ticks 5)))
    by (vm_compute; split; [discriminate|reflexivity]).
  split; [exact He|]. split; [exact Ht|].
  exact (@rdtscp_remaining_before_expiry Z Example.counter_cpu LINUX
           (timer_of_time_point (Example.at_ticks 9)) (Example.at_ticks 5)
           He Ht).
Defined.

(** ** The undeclared write of [ECX] *)

